(** * tricorder: the [messages] wire types and the [healthserver] state setters

    A shallow embedding of the two Go packages
    - [messages] (metric samples, their two representations, [ZeroValue],
      the package initialiser), and
    - [healthserver] (the four state setters of its API),
    followed by the properties proved about them.

    Go values held in an [interface{}] are a tagged union ([value]) with
    their dynamic type ([typeOf]); a function that mutates its receiver
    returns the receiver's state after the call; a call that may panic
    returns a [outcome]. *)

From Stdlib Require Import ZArith NArith List String Ascii Bool Lia.
From Stdlib Require Import Decimal DecimalString DecimalN DecimalFacts.
Import ListNotations.

Local Open Scope Z_scope.

(* ================================================================== *)
(** * Package [types]: the kind of a metric value *)
(* ================================================================== *)

Module types.

(** Modelled from the spec: the declaration of [types.Type] (package
    [types], not part of the files at hand).  The enumeration is the closed
    one of the data model; [Other] stands for any value of the underlying Go
    type that is none of the enumerated constants.  The kinds that the
    [Metric] documentation marks as Go RPC only are no members of that
    enumeration and fall under [Other]. *)
Inductive type : Set :=
| Unknown
| Bool
| Int8 | Int16 | Int32 | Int64
| Uint8 | Uint16 | Uint32 | Uint64
| Float32 | Float64
| String
| Dist
| Time
| Duration
| List
| Other (raw : N).

Definition eq_dec (a b : type) : {a = b} + {a <> b}.
Proof. decide equality; apply N.eq_dec. Defined.

Definition eqb (a b : type) : bool := if eq_dec a b then true else false.

(** Bool, the integers, the floats and String: the kinds whose payload is
    one untouched scalar. *)
Definition isScalar (t : type) : bool :=
  match t with
  | Bool | Int8 | Int16 | Int32 | Int64
  | Uint8 | Uint16 | Uint32 | Uint64
  | Float32 | Float64 | String => true
  | _ => false
  end.

(** Time and Duration: the kinds whose JSON payload is a literal. *)
Definition isTimeLike (t : type) : bool :=
  match t with Time | Duration => true | _ => false end.

End types.

(* ================================================================== *)
(** * The seconds literal of the JSON representation *)
(* ================================================================== *)

(** Modelled from the spec: the encoding of a timestamp or duration as
    ["<seconds>.<9-digit fraction>"] (the conversion code that prints and
    reads it is not part of the files at hand).  A native timestamp is its
    distance from the epoch and a native duration its length, both counted
    in nanoseconds. *)
Module literal.

Definition nanosPerSecond : Z := 1000000000.

Definition digitChar (d : Z) : ascii := ascii_of_N (48 + Z.to_N d).

Definition digitVal (c : ascii) : option Z :=
  let n := Z.of_N (N_of_ascii c) in
  if (48 <=? n) && (n <=? 57) then Some (n - 48) else None.

(** [fixed w n acc]: the [w] low decimal digits of [n], most significant
    first, in front of [acc]. *)
Fixpoint fixed (w : nat) (n : Z) (acc : string) : string :=
  match w with
  | O => acc
  | S w' => fixed w' (n / 10) (String (digitChar (n mod 10)) acc)
  end.

(** The value of a string of digits read after [acc]; [None] on any other
    character. *)
Fixpoint digitsVal (s : string) (acc : Z) : option Z :=
  match s with
  | EmptyString => Some acc
  | String c s' =>
      match digitVal c with
      | Some d => digitsVal s' (10 * acc + d)
      | None => None
      end
  end.

(** The whole seconds, in decimal without padding. *)
Definition whole (n : Z) : string :=
  NilEmpty.string_of_uint (N.to_uint (Z.to_N n)).

(** At least one character, and no zero in front of another character. *)
Definition plainWhole (s : string) : bool :=
  match s with
  | EmptyString => false
  | String c EmptyString => true
  | String c _ => negb (Ascii.eqb c "0")
  end.

Definition parseWhole (s : string) : option Z :=
  if plainWhole s then
    match NilEmpty.uint_of_string s with
    | Some d => Some (Z.of_N (N.of_uint d))
    | None => None
    end
  else None.

(** The text before the first point and the text after it. *)
Fixpoint splitPoint (s : string) : option (string * string) :=
  match s with
  | EmptyString => None
  | String c s' =>
      if Ascii.eqb c "." then Some (EmptyString, s')
      else match splitPoint s' with
           | Some (a, b) => Some (String c a, b)
           | None => None
           end
  end.

Definition format (ns : Z) : string :=
  let a := Z.abs ns in
  let sign := if ns <? 0 then "-"%string else EmptyString in
  (sign ++ whole (a / nanosPerSecond) ++ "."
        ++ fixed 9 (a mod nanosPerSecond) EmptyString)%string.

Definition magnitude (body : string) : option Z :=
  match splitPoint body with
  | Some (w, f) =>
      if (String.length f =? 9)%nat then
        match parseWhole w, digitsVal f 0 with
        | Some sec, Some frac => Some (sec * nanosPerSecond + frac)
        | _, _ => None
        end
      else None
  | None => None
  end.

(** The sign stands in front of the whole literal, and only in front of a
    value below zero. *)
Definition parse (s : string) : option Z :=
  match s with
  | EmptyString => None
  | String c body =>
      if Ascii.eqb c "-" then
        match magnitude body with
        | Some a => if a =? 0 then None else Some (- a)
        | None => None
        end
      else magnitude s
  end.

(** The shape every literal has: an optional sign, one or more digits, one
    point, nine digits. *)
Definition allDigits (s : string) : Prop :=
  forall c, In c (list_ascii_of_string s) -> digitVal c <> None.

Definition shaped (s : string) : Prop :=
  exists (sign w f : string),
    s = (sign ++ w ++ "." ++ f)%string /\
    (sign = EmptyString \/ sign = "-"%string) /\
    w <> EmptyString /\ allDigits w /\
    String.length f = 9%nat /\ allDigits f.

(** A string that is the literal of no count. *)
Definition malformed (s : string) : Prop := forall n : Z, s <> format n.

(** The deviations the format names: no point, digits after the point but
    not nine of them, a character that is no digit, no point and no sign. *)
Inductive deviation (s : string) : Prop :=
| MissingPoint :
    ~ In "."%char (list_ascii_of_string s) -> deviation s
| WrongDigitCount (w f : string) :
    s = (w ++ String "." f)%string -> allDigits f ->
    String.length f <> 9%nat -> deviation s
| NonNumeric (c : ascii) :
    In c (list_ascii_of_string s) -> digitVal c = None ->
    c <> "."%char -> c <> "-"%char -> deviation s.

End literal.

(* ================================================================== *)
(** * Go values *)
(* ================================================================== *)

(** A call either returns or panics. *)
Inductive outcome (A : Type) : Type :=
| Returned (a : A)
| Panicked (reason : string).
Arguments Returned {A} a.
Arguments Panicked {A} reason.

(** The next statement runs unless the call before it panicked. *)
Definition andThen {A B : Type} (o : outcome A) (k : A -> outcome B)
  : outcome B :=
  match o with
  | Returned a => k a
  | Panicked reason => Panicked reason
  end.

Notation "x <~ o ;; k" := (andThen o (fun x => k))
  (at level 61, o at next level, right associativity).

(** [error]: a value made by [errors.New], told apart by its text. *)
Record error : Set := errors_New { Error : string }.

(** A [float64] or [float32] is carried as its IEEE bit pattern; no
    function below computes with one. *)
Definition float64 : Set := Z.
Definition float32 : Set := Z.
Definition uint64 : Set := Z.

(** The Go types that occur as the dynamic type of a payload. *)
Inductive gotype : Set :=
| TInterface
| TBool
| TInt8 | TInt16 | TInt32 | TInt64
| TUint8 | TUint16 | TUint32 | TUint64
| TFloat32 | TFloat64
| TString
| TTime
| TDuration
| TDistribution
| TPointer (elem : gotype)
| TSlice (elem : gotype).

Definition gotype_eq_dec (a b : gotype) : {a = b} + {a <> b}.
Proof. decide equality. Defined.

Definition gotype_eqb (a b : gotype) : bool :=
  if gotype_eq_dec a b then true else false.

(** One scalar of a payload.  [STime] holds the nanoseconds since the epoch
    of a [time.Time], [SDuration] the nanoseconds of a [time.Duration]; the
    model puts no bound on either count. *)
Inductive scalar : Set :=
| SBool (b : bool)
| SInt8 (z : Z) | SInt16 (z : Z) | SInt32 (z : Z) | SInt64 (z : Z)
| SUint8 (z : Z) | SUint16 (z : Z) | SUint32 (z : Z) | SUint64 (z : Z)
| SFloat32 (bits : float32) | SFloat64 (bits : float64)
| SString (s : string)
| STime (unixNano : Z)
| SDuration (nanos : Z).

Definition scalarType (x : scalar) : gotype :=
  match x with
  | SBool _ => TBool
  | SInt8 _ => TInt8 | SInt16 _ => TInt16 | SInt32 _ => TInt32 | SInt64 _ => TInt64
  | SUint8 _ => TUint8 | SUint16 _ => TUint16
  | SUint32 _ => TUint32 | SUint64 _ => TUint64
  | SFloat32 _ => TFloat32 | SFloat64 _ => TFloat64
  | SString _ => TString
  | STime _ => TTime
  | SDuration _ => TDuration
  end.

(** The zero [time.Time] is the first instant of year 1, 62135596800
    seconds before the epoch. *)
Definition zeroTime : Z := - 62135596800 * literal.nanosPerSecond.

(** The number of values within a particular range. *)
Module RangeWithCount.
Record t : Set := mk {
  Lower : float64;
  Upper : float64;
  Count : uint64
}.
End RangeWithCount.

(** A distribution of values.  [Ranges] is a slice of pointers in the
    code; the embedding keeps the ranges pointed to, in order. *)
Module Distribution.
Record t : Set := mk {
  Min : float64;
  Max : float64;
  Average : float64;
  Median : float64;
  Sum : float64;
  Count : uint64;
  Generation : uint64;
  IsNotCumulative : bool;
  Ranges : list RangeWithCount.t
}.

(** [Distribution{}] *)
Definition zero : t := mk 0 0 0 0 0 0 0 false [].



(** [func (d *Distribution) Type() types.Type] *)
Definition Type_ (d : option t) : types.type := types.Dist.
End Distribution.

(** What an [interface{}] holds: nothing, a scalar, a [Distribution], a
    [*Distribution] ([None] is the nil pointer) or a slice of scalars with
    its element type. *)
Inductive value : Set :=
| VNil
| VScalar (x : scalar)
| VDistribution (d : Distribution.t)
| VDistributionPtr (p : option Distribution.t)
| VSlice (elem : gotype) (items : list scalar).

Definition typeOf (v : value) : option gotype :=
  match v with
  | VNil => None
  | VScalar x => Some (scalarType x)
  | VDistribution _ => Some TDistribution
  | VDistributionPtr _ => Some (TPointer TDistribution)
  | VSlice elem _ => Some (TSlice elem)
  end.

(* ================================================================== *)
(** * Package [encoding/gob]: the registry of interface payload types *)
(* ================================================================== *)

Module gob.

(** The concrete types that may travel as the value of an interface. *)
Definition registry : Set := list gotype.

Definition registered (r : registry) (t : gotype) : bool :=
  existsb (gotype_eqb t) r.

(** The basic types need no registration. *)
Definition builtin (t : gotype) : bool :=
  match t with
  | TBool | TInt8 | TInt16 | TInt32 | TInt64
  | TUint8 | TUint16 | TUint32 | TUint64
  | TFloat32 | TFloat64 | TString => true
  | _ => false
  end.

(** [gob.Register(value)] records the dynamic type of [value]; it panics on
    an interface that holds nothing. *)
Definition Register (v : value) (r : registry) : outcome registry :=
  match typeOf v with
  | Some t => Returned (if registered r t then r else t :: r)
  | None => Panicked "gob: attempt to register empty interface"
  end.

(** Whether the encoder sends [v] as an interface value with what it knows
    by itself, that is, with no type passed along at the call. *)
Definition sendsAsInterface (r : registry) (v : value) : bool :=
  match typeOf v with
  | Some t => builtin t || registered r t
  | None => false
  end.

End gob.

(* ================================================================== *)
(** * Package [messages] *)
(* ================================================================== *)

Module messages.

(** The MetricServer.GetMetric RPC call returns this if no metric with
    given path exists. *)
Definition ErrMetricNotFound : error :=
  errors_New "messages: No metric found.".

(** Modelled from the spec: the two failures of a conversion or of a
    zero-value request, named by the condition the spec gives them (the
    code that raises them is not part of the files at hand). *)
Definition errMalformedLiteral : error :=
  errors_New "malformed time/duration literal".
Definition errUnsupportedKind : error := errors_New "unsupported kind".

(** Modelled from the spec: [units.Unit] (package [units], not part of the
    files at hand), a measurement unit tag. *)
Definition units_Unit : Set := N.

(** A single metric.  [Value] and [TimeStamp] are [interface{}]. *)
Record Metric : Set := mkMetric {
  Path : string;
  Description : string;
  Unit : units_Unit;
  Kind : types.type;
  SubType : types.type;
  Bits : Z;
  Value : value;
  TimeStamp : value;
  GroupId : Z
}.

(** A list of metrics. *)
Definition MetricList : Set := list Metric.

(** ** The conversion engine *)

(** A value or the error that stands for it. *)
Inductive result (A : Type) : Type :=
| Ok (a : A)
| Err (e : error).
Arguments Ok {A} a.
Arguments Err {A} e.

Definition bind {A B : Type} (r : result A) (k : A -> result B) : result B :=
  match r with
  | Ok a => k a
  | Err e => Err e
  end.

Notation "x <- r ;; k" := (bind r (fun x => k))
  (at level 61, r at next level, right associativity).

Fixpoint mapM {A B : Type} (f : A -> result B) (l : list A) : result (list B) :=
  match l with
  | [] => Ok []
  | a :: l' => b <- f a ;; bs <- mapM f l' ;; Ok (b :: bs)
  end.

(** Modelled from the spec: the rows of the dispatch table of the
    conversion engine.  A kind other than List ignores the sub-type; a List
    has a scalar, Time or Duration element kind. *)
Definition inDispatchTable (kind subType : types.type) : bool :=
  match kind with
  | types.List => types.isScalar subType || types.isTimeLike subType
  | types.Dist | types.Time | types.Duration => true
  | _ => types.isScalar kind
  end.

(** Modelled from the spec: one literal read into a native timestamp
    ([wrap] is [STime]) or duration ([wrap] is [SDuration]); anything that
    is not the exact literal is malformed. *)
Definition readLiteral (wrap : Z -> scalar) (x : scalar) : result scalar :=
  match x with
  | SString s =>
      match literal.parse s with
      | Some n => Ok (wrap n)
      | None => Err errMalformedLiteral
      end
  | _ => Err errMalformedLiteral
  end.

(** Modelled from the spec: a native timestamp or duration written as its
    literal. *)
Definition writeTime (x : scalar) : result scalar :=
  match x with
  | STime n => Ok (SString (literal.format n))
  | _ => Err errUnsupportedKind
  end.

Definition writeDuration (x : scalar) : result scalar :=
  match x with
  | SDuration n => Ok (SString (literal.format n))
  | _ => Err errUnsupportedKind
  end.

(** Modelled from the spec: the JSON payload of a kind re-shaped into its
    native payload, row by row of the dispatch table; a kind outside the
    table is refused. *)
Definition valueToNative (kind subType : types.type) (v : value)
  : result value :=
  match kind with
  | types.Time =>
      match v with
      | VScalar x => y <- readLiteral STime x ;; Ok (VScalar y)
      | _ => Err errMalformedLiteral
      end
  | types.Duration =>
      match v with
      | VScalar x => y <- readLiteral SDuration x ;; Ok (VScalar y)
      | _ => Err errMalformedLiteral
      end
  | types.List =>
      match subType with
      | types.Time =>
          match v with
          | VSlice TString items =>
              ys <- mapM (readLiteral STime) items ;; Ok (VSlice TTime ys)
          | _ => Err errMalformedLiteral
          end
      | types.Duration =>
          match v with
          | VSlice TString items =>
              ys <- mapM (readLiteral SDuration) items ;;
              Ok (VSlice TDuration ys)
          | _ => Err errMalformedLiteral
          end
      | _ => if types.isScalar subType then Ok v else Err errUnsupportedKind
      end
  | types.Dist => Ok v
  | _ => if types.isScalar kind then Ok v else Err errUnsupportedKind
  end.

(** Modelled from the spec: the native payload of a kind re-shaped into
    its JSON payload. *)
Definition valueToJson (kind subType : types.type) (v : value)
  : result value :=
  match kind with
  | types.Time =>
      match v with
      | VScalar x => y <- writeTime x ;; Ok (VScalar y)
      | _ => Err errUnsupportedKind
      end
  | types.Duration =>
      match v with
      | VScalar x => y <- writeDuration x ;; Ok (VScalar y)
      | _ => Err errUnsupportedKind
      end
  | types.List =>
      match subType with
      | types.Time =>
          match v with
          | VSlice TTime items =>
              ys <- mapM writeTime items ;; Ok (VSlice TString ys)
          | _ => Err errUnsupportedKind
          end
      | types.Duration =>
          match v with
          | VSlice TDuration items =>
              ys <- mapM writeDuration items ;; Ok (VSlice TString ys)
          | _ => Err errUnsupportedKind
          end
      | _ => if types.isScalar subType then Ok v else Err errUnsupportedKind
      end
  | types.Dist => Ok v
  | _ => if types.isScalar kind then Ok v else Err errUnsupportedKind
  end.

(** Modelled from the spec: the time stamp follows the rule of a Time
    payload; the empty string and the nil interface both say that there is
    none. *)
Definition timeStampToNative (ts : value) : result value :=
  match ts with
  | VScalar (SString s) =>
      if String.eqb s EmptyString then Ok VNil
      else y <- readLiteral STime (SString s) ;; Ok (VScalar y)
  | _ => Err errMalformedLiteral
  end.

Definition timeStampToJson (ts : value) : result value :=
  match ts with
  | VNil => Ok (VScalar (SString EmptyString))
  | VScalar x => y <- writeTime x ;; Ok (VScalar y)
  | _ => Err errUnsupportedKind
  end.

(** The metric with a new payload and time stamp: the two fields a
    conversion assigns. *)
Definition setPayload (m : Metric) (v ts : value) : Metric :=
  {| Path := Path m; Description := Description m; Unit := Unit m;
     Kind := Kind m; SubType := SubType m; Bits := Bits m;
     Value := v; TimeStamp := ts; GroupId := GroupId m |}.

(** Modelled from the spec: [convertToGoRPC] and [convertToJson], the two
    unexported methods behind the entry points (not part of the files at
    hand).  Each returns the metric as the call leaves it and the error it
    reports; a failed conversion assigns nothing. *)
Definition convertToGoRPC (m : Metric) : Metric * option error :=
  match valueToNative (Kind m) (SubType m) (Value m),
        timeStampToNative (TimeStamp m) with
  | Ok v, Ok ts => (setPayload m v ts, None)
  | Err e, _ => (m, Some e)
  | Ok _, Err e => (m, Some e)
  end.

Definition convertToJson (m : Metric) : Metric * option error :=
  match valueToJson (Kind m) (SubType m) (Value m),
        timeStampToJson (TimeStamp m) with
  | Ok v, Ok ts => (setPayload m v ts, None)
  | Err e, _ => (m, Some e)
  | Ok _, Err e => (m, Some e)
  end.

(** ConvertToGoRPC changes this metric in place to be go rpc compatible. *)
Definition ConvertToGoRPC (m : Metric) : Metric * option error :=
  convertToGoRPC m.

(** ConvertToJson changes this metric in place to be json compatible.  The
    method has no result: whatever [convertToJson] reports stops here. *)
Definition ConvertToJson (m : Metric) : Metric :=
  fst (convertToJson m).

(** The two directions of the engine, and what the caller of either entry
    point holds after the call: the metric and the error returned to it. *)
Inductive direction : Set := ToNative | ToJSON.

Definition convert (d : direction) (m : Metric) : Metric * option error :=
  match d with
  | ToNative => ConvertToGoRPC m
  | ToJSON => (ConvertToJson m, None)
  end.

(** ** The shapes of a payload *)






(** ** Zero values *)

(** Modelled from the spec: [types.Type.SafeZeroValue] (package [types],
    not part of the files at hand): the native zero of the scalar of a
    kind, an empty sequence for List, "unsupported kind" for Unknown and
    for a value outside the enumeration.  It knows no type of package
    [messages], so it has no zero value for Dist. *)
Definition SafeZeroValue (t : types.type) : value * option error :=
  match t with
  | types.Bool => (VScalar (SBool false), None)
  | types.Int8 => (VScalar (SInt8 0), None)
  | types.Int16 => (VScalar (SInt16 0), None)
  | types.Int32 => (VScalar (SInt32 0), None)
  | types.Int64 => (VScalar (SInt64 0), None)
  | types.Uint8 => (VScalar (SUint8 0), None)
  | types.Uint16 => (VScalar (SUint16 0), None)
  | types.Uint32 => (VScalar (SUint32 0), None)
  | types.Uint64 => (VScalar (SUint64 0), None)
  | types.Float32 => (VScalar (SFloat32 0), None)
  | types.Float64 => (VScalar (SFloat64 0), None)
  | types.String => (VScalar (SString EmptyString), None)
  | types.Time => (VScalar (STime zeroTime), None)
  | types.Duration => (VScalar (SDuration 0), None)
  | types.List => (VSlice TInterface [], None)
  | types.Dist | types.Unknown | types.Other _ => (VNil, Some errUnsupportedKind)
  end.

(** ZeroValue works like types.Type.SafeZeroValue, but unlike the
    types.Type version, this method can also return zero values for types
    in this package. *)
Definition ZeroValue (t : types.type) : value * option error :=
  if types.eqb t types.Dist then (VDistributionPtr None, None)
  else SafeZeroValue t.

(** ** Package initialisation *)

(** [func init()]: five variables at their zero value, each handed to
    [gob.Register]. *)
Definition init (r : gob.registry) : outcome gob.registry :=
  let tm := VScalar (STime zeroTime) in
  let dur := VScalar (SDuration 0) in
  let tml := VSlice TTime [] in
  let durl := VSlice TDuration [] in
  let dist := VDistributionPtr None in
  r <~ gob.Register tm r ;;
  r <~ gob.Register dur r ;;
  r <~ gob.Register tml r ;;
  r <~ gob.Register durl r ;;
  gob.Register dist r.

(** ** Looking a metric up by its path *)

(** Modelled from the spec: the lookup of a metric by its path (the
    MetricServer.GetMetric RPC call, not part of the files at hand): the
    metric of that path, or [ErrMetricNotFound] if there is none. *)
Definition GetMetric (ml : MetricList) (path : string)
  : option Metric * option error :=
  match find (fun m => String.eqb (Path m) path) ml with
  | Some m => (Some m, None)
  | None => (None, Some ErrMetricNotFound)
  end.

(** ** Samples *)

(** A metric of a kind with a payload and a time stamp. *)
Definition sample (kind subType : types.type) (v ts : value) : Metric :=
  {| Path := "/proc/sample"; Description := "a sample"; Unit := 0%N;
     Kind := kind; SubType := subType; Bits := 0;
     Value := v; TimeStamp := ts; GroupId := 0 |}.

(** A conversion that reports an error to its caller. *)
Definition reportsError (d : direction) (m : Metric) : Prop :=
  exists e : error, snd (convert d m) = Some e.

End messages.

(* ================================================================== *)
(** * Package [healthserver] *)
(* ================================================================== *)

Module healthserver.

(** The two flags the handlers answer from.  Each holds the status string
    last set; the empty string stands for "OK". *)
Record flags : Set := mkFlags {
  health : string;
  ready : string
}.

(** By default, the /health handler responds with "OK" and the /readiness
    handler with "not ready". *)
Definition initial : flags := {| health := ""; ready := "not ready" |}.

(** Modelled from the spec: [setHealth] and [setReady], the unexported
    setters behind the API (not part of the files at hand): each stores the
    status in its own flag and leaves the other one alone. *)
Definition setHealth (status : string) (st : flags) : flags :=
  {| health := status; ready := ready st |}.

Definition setReady (status : string) (st : flags) : flags :=
  {| health := health st; ready := status |}.

(** Modelled from the spec: what GET /healthz and GET /readiness answer:
    200 "OK", or 503 and the message. *)
Definition respond (status : string) : Z * string :=
  if String.eqb status "" then (200, "OK"%string) else (503, status).

Definition healthz (st : flags) : Z * string := respond (health st).
Definition readiness (st : flags) : Z * string := respond (ready st).

(** The two statuses that stand for "no failure". *)
Definition reserved (status : string) : Prop :=
  status = EmptyString \/ status = "OK"%string.

(** SetHealthy will make the /healthz HTTP handler respond with "OK". *)
Definition SetHealthy (st : flags) : outcome flags :=
  Returned (setHealth "" st).

(** SetNotHealthy will make the /healthz HTTP handler respond with a
    "503 Service Unavailable" HTTP status followed by the status string.
    Passing "" or "OK" for status will result in a panic. *)
Definition SetNotHealthy (status : string) (st : flags) : outcome flags :=
  if String.eqb status "" || String.eqb status "OK" then
    Panicked "OK status not permitted"
  else Returned (setHealth status st).

(** SetNotReady will make the /readiness HTTP handler respond with a
    "503 Service Unavailable" HTTP status followed by the status string.
    Passing "" or "OK" for status will result in a panic. *)
Definition SetNotReady (status : string) (st : flags) : outcome flags :=
  if String.eqb status "" || String.eqb status "OK" then
    Panicked "OK status not permitted"
  else Returned (setReady status st).

(** SetReady will make the /readiness HTTP handler respond with "OK". *)
Definition SetReady (st : flags) : outcome flags :=
  Returned (setReady "" st).

End healthserver.

(* ================================================================== *)
(** * Callers *)
(* ================================================================== *)

(** The types [messages.init] hands to [gob.Register], in its order. *)
Definition initTypes : list gotype :=
  [TTime; TDuration; TSlice TTime; TSlice TDuration; TPointer TDistribution].

(** A program that uses the [healthserver] API: the calls it makes, one
    after the other, on the flags of the process.  A panic ends it. *)
Module healthcalls.

Inductive call : Set :=
| CallSetHealthy
| CallSetNotHealthy (status : string)
| CallSetNotReady (status : string)
| CallSetReady.

Definition perform (c : call) (st : healthserver.flags)
  : outcome healthserver.flags :=
  match c with
  | CallSetHealthy => healthserver.SetHealthy st
  | CallSetNotHealthy status => healthserver.SetNotHealthy status st
  | CallSetNotReady status => healthserver.SetNotReady status st
  | CallSetReady => healthserver.SetReady st
  end.

Fixpoint run (cs : list call) (st : healthserver.flags)
  : outcome healthserver.flags :=
  match cs with
  | [] => Returned st
  | c :: cs' => st' <~ perform c st ;; run cs' st'
  end.

(** The status a call stores in the health flag, if it stores one, and the
    status it stores in the readiness flag. *)
Definition healthWrite (c : call) : option string :=
  match c with
  | CallSetHealthy => Some EmptyString
  | CallSetNotHealthy status => Some status
  | _ => None
  end.

Definition readyWrite (c : call) : option string :=
  match c with
  | CallSetReady => Some EmptyString
  | CallSetNotReady status => Some status
  | _ => None
  end.

(** The status of the last call that stores one, [start] if none does. *)
Fixpoint lastWrite (w : call -> option string) (cs : list call)
  (start : string) : string :=
  match cs with
  | [] => start
  | c :: cs' =>
      lastWrite w cs' (match w c with Some s => s | None => start end)
  end.

(** Neither flag holds the text "OK" as a failure message. *)
Definition unambiguous (st : healthserver.flags) : Prop :=
  healthserver.health st <> "OK"%string
  /\ healthserver.ready st <> "OK"%string.

(** An answer of a handler that says what it means: 200 with "OK", or 503
    with a message that is neither empty nor "OK". *)
Definition plainAnswer (a : Z * string) : Prop :=
  a = (200, "OK"%string)
  \/ exists msg, a = (503, msg) /\ ~ healthserver.reserved msg.

End healthcalls.

(* ================================================================== *)
(** * The literal: printing and reading are inverse *)
(* ================================================================== *)

Section LiteralFacts.
Import literal.

Lemma digitVal_digitChar (d : Z) :
  0 <= d < 10 -> digitVal (digitChar d) = Some d.
Proof.
  intros H.
  assert (C : d = 0 \/ d = 1 \/ d = 2 \/ d = 3 \/ d = 4 \/ d = 5 \/ d = 6
              \/ d = 7 \/ d = 8 \/ d = 9) by lia.
  repeat (destruct C as [-> | C]; [reflexivity |]).
  subst d; reflexivity.
Qed.

Lemma digitVal_inv (c : ascii) (d : Z) :
  digitVal c = Some d -> 0 <= d < 10 /\ digitChar d = c.
Proof.
  destruct c as [[|] [|] [|] [|] [|] [|] [|] [|]];
    vm_compute; intros E; try discriminate E;
    injection E as <-; repeat split; discriminate.
Qed.

Lemma digitVal_not_minus (c : ascii) :
  digitVal c <> None -> Ascii.eqb c "-" = false /\ Ascii.eqb c "." = false.
Proof.
  destruct c as [[|] [|] [|] [|] [|] [|] [|] [|]];
    vm_compute; intros E; try (exfalso; apply E; reflexivity);
    split; reflexivity.
Qed.

Lemma length_fixed (w : nat) : forall (n : Z) (acc : string),
  String.length (fixed w n acc) = (w + String.length acc)%nat.
Proof.
  induction w as [| w IH]; intros n acc; simpl; [reflexivity |].
  rewrite IH; simpl; lia.
Qed.

Lemma digitsVal_fixed (w : nat) : forall (n a : Z) (acc : string),
  0 <= n < 10 ^ Z.of_nat w ->
  digitsVal (fixed w n acc) a = digitsVal acc (a * 10 ^ Z.of_nat w + n).
Proof.
  induction w as [| w IH]; intros n a acc H.
  - simpl in *. f_equal. lia.
  - rewrite Nat2Z.inj_succ, Z.pow_succ_r in * by lia.
    cbn [fixed].
    rewrite IH by (split; [apply Z.div_pos; lia | apply Z.div_lt_upper_bound; lia]).
    cbn [digitsVal].
    rewrite digitVal_digitChar by (apply Z.mod_pos_bound; lia).
    f_equal.
    pose proof (Z.div_mod n 10 ltac:(lia)). lia.
Qed.

Lemma fixed_front (w : nat) : forall (n : Z) (acc : string),
  fixed (S w) n acc
  = String (digitChar ((n / 10 ^ Z.of_nat w) mod 10)) (fixed w n acc).
Proof.
  induction w as [| w IH]; intros n acc.
  - simpl. now rewrite Z.div_1_r.
  - change (fixed (S (S w)) n acc)
      with (fixed (S w) (n / 10) (String (digitChar (n mod 10)) acc)).
    rewrite IH.
    rewrite Nat2Z.inj_succ, Z.pow_succ_r by lia.
    rewrite Z.div_div by lia.
    reflexivity.
Qed.

Lemma digitsVal_bounds (s : string) : forall (a n : Z),
  digitsVal s a = Some n ->
  a * 10 ^ Z.of_nat (String.length s) <= n
  < (a + 1) * 10 ^ Z.of_nat (String.length s).
Proof.
  induction s as [| c s IH]; intros a n H.
  - simpl in *. injection H as <-. lia.
  - cbn [digitsVal] in H.
    destruct (digitVal c) as [d |] eqn:E; [| discriminate].
    apply digitVal_inv in E. destruct E as [Hd _].
    apply IH in H.
    cbn [String.length]. rewrite Nat2Z.inj_succ, Z.pow_succ_r by lia.
    assert (0 < 10 ^ Z.of_nat (String.length s)) by (apply Z.pow_pos_nonneg; lia).
    nia.
Qed.

Lemma fixed_digitsVal (s : string) : forall (a n : Z) (acc : string),
  digitsVal s a = Some n ->
  fixed (String.length s) n acc = (s ++ acc)%string.
Proof.
  induction s as [| c s IH]; intros a n acc H.
  - reflexivity.
  - cbn [digitsVal] in H.
    destruct (digitVal c) as [d |] eqn:E; [| discriminate].
    apply digitVal_inv in E. destruct E as [Hd Hc].
    cbn [String.length]. rewrite fixed_front.
    rewrite (IH _ _ acc H).
    apply digitsVal_bounds in H.
    assert (0 < 10 ^ Z.of_nat (String.length s)) by (apply Z.pow_pos_nonneg; lia).
    assert (Q : n / 10 ^ Z.of_nat (String.length s) = 10 * a + d).
    { symmetry. apply Z.div_unique with (r := n - (10 * a + d) * 10 ^ Z.of_nat (String.length s)); lia. }
    rewrite Q.
    replace ((10 * a + d) mod 10) with d.
    + rewrite Hc. reflexivity.
    + apply Z.mod_unique with (q := a); lia.
Qed.

(** Digits only, as the standard library reads them. *)
Lemma uint_of_string_allDigits (s : string) : forall d,
  NilEmpty.uint_of_string s = Some d -> allDigits s.
Proof.
  induction s as [| c s IH]; intros d H x Hx.
  - destruct Hx.
  - cbn [NilEmpty.uint_of_string] in H.
    destruct (NilEmpty.uint_of_string s) as [d' |] eqn:E; [| discriminate].
    destruct Hx as [<- | Hx]; [| exact (IH d' eq_refl x Hx)].
    apply uint_of_char_spec in H.
    repeat (destruct H as [[-> _] | H]; [discriminate |]).
    destruct H as [-> _]; discriminate.
Qed.

Lemma digitsVal_allDigits (s : string) : forall a n,
  digitsVal s a = Some n -> allDigits s.
Proof.
  induction s as [| c s IH]; intros a n H x Hx.
  - destruct Hx.
  - cbn [digitsVal] in H.
    destruct (digitVal c) as [d |] eqn:E; [| discriminate].
    destruct Hx as [<- | Hx]; [congruence | exact (IH _ _ H x Hx)].
Qed.

Lemma string_of_uint_allDigits (d : uint) :
  allDigits (NilEmpty.string_of_uint d).
Proof.
  apply uint_of_string_allDigits with (d := d). apply NilEmpty.usu.
Qed.

(** A normal numeral prints plainly, and a plain string reads as a normal
    numeral. *)
Lemma unorm_fix_plain (d : uint) :
  unorm d = d -> plainWhole (NilEmpty.string_of_uint d) = true.
Proof.
  destruct d as [| d' | d' | d' | d' | d' | d' | d' | d' | d' | d'];
    intros H; try (cbn; destruct (NilEmpty.string_of_uint d'); reflexivity).
  - discriminate H.
  - rewrite unorm_D0 in H.
    destruct d' as [| | | | | | | | | |]; try reflexivity;
      exfalso;
      match type of H with
      | unorm ?u = _ =>
          assert (N : u <> Nil) by discriminate;
          pose proof (nb_digits_unorm u N) as L;
          rewrite H in L; cbn [nb_digits] in L; lia
      end.
Qed.

Lemma plain_unorm_fix (s : string) (d : uint) :
  plainWhole s = true -> NilEmpty.uint_of_string s = Some d -> unorm d = d.
Proof.
  destruct s as [| c s]; [discriminate |].
  intros P H. cbn [NilEmpty.uint_of_string] in H.
  destruct (NilEmpty.uint_of_string s) as [d' |] eqn:E; [| discriminate].
  apply uint_of_char_spec in H.
  destruct H as [[-> ->] | H].
  - destruct s as [| c' s']; [| discriminate P].
    injection E as <-. reflexivity.
  - repeat (destruct H as [[_ ->] | H]; [reflexivity |]).
    destruct H as [_ ->]; reflexivity.
Qed.

Lemma parseWhole_whole (n : Z) : 0 <= n -> parseWhole (whole n) = Some n.
Proof.
  intros H. unfold parseWhole, whole.
  assert (F : unorm (N.to_uint (Z.to_N n)) = N.to_uint (Z.to_N n)).
  { rewrite <- DecimalN.Unsigned.to_of, DecimalN.Unsigned.of_to. reflexivity. }
  rewrite (unorm_fix_plain _ F), NilEmpty.usu, DecimalN.Unsigned.of_to.
  f_equal. lia.
Qed.

Lemma whole_parseWhole (s : string) (n : Z) :
  parseWhole s = Some n -> whole n = s /\ 0 <= n /\ s <> EmptyString /\ allDigits s.
Proof.
  unfold parseWhole, whole.
  destruct (plainWhole s) eqn:P; [| discriminate].
  destruct (NilEmpty.uint_of_string s) as [d |] eqn:E; [| discriminate].
  intros [= <-].
  rewrite N2Z.id, DecimalN.Unsigned.to_of, (plain_unorm_fix s d P E).
  repeat split.
  - now apply NilEmpty.sus.
  - lia.
  - intros ->; discriminate P.
  - now apply uint_of_string_allDigits with (d := d).
Qed.

Lemma whole_allDigits (n : Z) : allDigits (whole n).
Proof. apply string_of_uint_allDigits. Qed.

(** The point is found where the digits end. *)
Lemma splitPoint_app (w f : string) :
  allDigits w -> splitPoint (w ++ String "." f) = Some (w, f).
Proof.
  induction w as [| c w IH]; intros H.
  - reflexivity.
  - cbn [append splitPoint].
    destruct (digitVal_not_minus c) as [_ ->].
    + apply H. left. reflexivity.
    + rewrite IH; [reflexivity |].
      intros x Hx. apply H. right. exact Hx.
Qed.

Lemma splitPoint_inv (s : string) : forall w f,
  splitPoint s = Some (w, f) -> s = (w ++ String "." f)%string.
Proof.
  induction s as [| c s IH]; intros w f H; [discriminate |].
  cbn [splitPoint] in H.
  destruct (Ascii.eqb c ".") eqn:E.
  - apply Ascii.eqb_eq in E. injection H as <- <-. now subst c.
  - destruct (splitPoint s) as [[a b] |]; [| discriminate].
    injection H as <- <-. cbn [append]. f_equal. now apply IH.
Qed.

Lemma nanosPerSecond_pow : nanosPerSecond = 10 ^ Z.of_nat 9.
Proof. reflexivity. Qed.

(** What [magnitude] accepts, and what it makes of it. *)
Lemma magnitude_inv (body : string) (a : Z) :
  magnitude body = Some a ->
  exists (w f : string) (sec frac : Z),
    body = (w ++ String "." f)%string /\
    parseWhole w = Some sec /\ digitsVal f 0 = Some frac /\
    String.length f = 9%nat /\
    0 <= sec /\ 0 <= frac < nanosPerSecond /\
    a = sec * nanosPerSecond + frac.
Proof.
  unfold magnitude.
  destruct (splitPoint body) as [[w f] |] eqn:S; [| discriminate].
  destruct (String.length f =? 9)%nat eqn:L; [| discriminate].
  destruct (parseWhole w) as [sec |] eqn:W; [| discriminate].
  destruct (digitsVal f 0) as [frac |] eqn:F; [| discriminate].
  intros [= <-].
  apply Nat.eqb_eq in L.
  exists w, f, sec, frac.
  pose proof (digitsVal_bounds f 0 frac F) as B. rewrite L in B.
  rewrite nanosPerSecond_pow.
  repeat split; try tauto; try lia.
  - now apply splitPoint_inv.
  - now apply whole_parseWhole in W.
Qed.

Lemma magnitude_print (a : Z) :
  0 <= a ->
  magnitude (whole (a / nanosPerSecond)
             ++ String "." (fixed 9 (a mod nanosPerSecond) EmptyString))
  = Some a.
Proof.
  intros H. unfold magnitude.
  rewrite splitPoint_app by apply whole_allDigits.
  rewrite length_fixed. cbn [String.length Nat.add Nat.eqb].
  rewrite parseWhole_whole by (apply Z.div_pos; [lia | reflexivity]).
  assert (B : 0 <= a mod nanosPerSecond < 10 ^ Z.of_nat 9)
    by (apply Z.mod_pos_bound; reflexivity).
  rewrite (digitsVal_fixed 9 _ 0 EmptyString B).
  cbn [digitsVal]. f_equal.
  pose proof (Z.div_mod a nanosPerSecond ltac:(discriminate)). lia.
Qed.

Lemma print_magnitude (body : string) (a : Z) :
  magnitude body = Some a ->
  0 <= a /\
  (whole (a / nanosPerSecond)
   ++ String "." (fixed 9 (a mod nanosPerSecond) EmptyString))%string = body.
Proof.
  intros H. apply magnitude_inv in H.
  destruct H as (w & f & sec & frac & -> & W & F & L & Hs & Hf & ->).
  assert (P : 0 < nanosPerSecond) by reflexivity.
  split; [nia |].
  replace ((sec * nanosPerSecond + frac) / nanosPerSecond) with sec
    by (apply Z.div_unique with (r := frac); lia).
  replace ((sec * nanosPerSecond + frac) mod nanosPerSecond) with frac
    by (apply Z.mod_unique with (q := sec); lia).
  apply whole_parseWhole in W. destruct W as (-> & _).
  rewrite <- L, (fixed_digitsVal f 0 frac EmptyString F).
  f_equal. f_equal.
  clear. induction f as [| c f IH]; [reflexivity | cbn; now rewrite IH].
Qed.

(** Reading what was printed gives the count back. *)
Lemma parse_format (n : Z) : parse (format n) = Some n.
Proof.
  unfold format. destruct (n <? 0) eqn:S.
  - apply Z.ltb_lt in S. cbn [append parse Ascii.eqb Bool.eqb].
    change (whole (Z.abs n / nanosPerSecond) ++ "."
            ++ fixed 9 (Z.abs n mod nanosPerSecond) "")%string
      with (whole (Z.abs n / nanosPerSecond)
            ++ String "." (fixed 9 (Z.abs n mod nanosPerSecond) EmptyString))%string.
    rewrite magnitude_print by lia.
    destruct (Z.abs n =? 0) eqn:Z0; [apply Z.eqb_eq in Z0; lia |].
    f_equal. lia.
  - apply Z.ltb_ge in S. cbn [append].
    change (whole (Z.abs n / nanosPerSecond) ++ "."
            ++ fixed 9 (Z.abs n mod nanosPerSecond) "")%string
      with (whole (Z.abs n / nanosPerSecond)
            ++ String "." (fixed 9 (Z.abs n mod nanosPerSecond) EmptyString))%string.
    pose proof (magnitude_print (Z.abs n) (Z.abs_nonneg n)) as M.
    pose proof (parseWhole_whole (Z.abs n / nanosPerSecond)
                  ltac:(apply Z.div_pos; [lia | reflexivity])) as W.
    pose proof (whole_allDigits (Z.abs n / nanosPerSecond)) as D.
    destruct (whole (Z.abs n / nanosPerSecond)) as [| c r] eqn:E.
    + apply whole_parseWhole in W. now destruct W as (_ & _ & W & _).
    + cbn [append] in *. cbn [parse].
      destruct (digitVal_not_minus c) as [-> _]; [apply D; now left |].
      rewrite M. f_equal. lia.
Qed.

(** Printing what was read gives the string back. *)
Lemma format_parse (s : string) (n : Z) : parse s = Some n -> format n = s.
Proof.
  destruct s as [| c body]; [discriminate |].
  cbn [parse]. destruct (Ascii.eqb c "-") eqn:E.
  - apply Ascii.eqb_eq in E. subst c.
    destruct (magnitude body) as [a |] eqn:M; [| discriminate].
    destruct (a =? 0) eqn:Z0; [discriminate |].
    apply Z.eqb_neq in Z0. intros [= <-].
    apply print_magnitude in M. destruct M as [P M].
    unfold format.
    destruct (- a <? 0) eqn:S; [| apply Z.ltb_ge in S; lia].
    rewrite Z.abs_opp, Z.abs_eq by lia.
    cbn [append]. f_equal. exact M.
  - intros M. apply print_magnitude in M. destruct M as [P M].
    unfold format.
    destruct (n <? 0) eqn:S; [apply Z.ltb_lt in S; lia |].
    rewrite Z.abs_eq by lia. exact M.
Qed.


(** Whatever reads as a literal has the shape of one. *)
Lemma parse_shaped (s : string) (n : Z) : parse s = Some n -> shaped s.
Proof.
  destruct s as [| c body]; [discriminate |].
  cbn [parse]. destruct (Ascii.eqb c "-") eqn:E.
  - apply Ascii.eqb_eq in E. subst c.
    destruct (magnitude body) as [a |] eqn:M; [| discriminate].
    intros _. apply magnitude_inv in M.
    destruct M as (w & f & sec & frac & -> & W & F & L & _).
    apply whole_parseWhole in W. destruct W as (_ & _ & Wn & Wd).
    exists "-"%string, w, f. repeat split; auto.
    now apply digitsVal_allDigits in F.
  - intros M. apply magnitude_inv in M.
    destruct M as (w & f & sec & frac & Eq & W & F & L & _).
    apply whole_parseWhole in W. destruct W as (_ & _ & Wn & Wd).
    exists EmptyString, w, f. repeat split; auto.
    now apply digitsVal_allDigits in F.
Qed.

End LiteralFacts.

(* ================================================================== *)
(** * The conversion engine *)
(* ================================================================== *)

Section ConversionFacts.
Import messages.



Lemma mapM_error {A B : Type} (f : A -> result B) (e : error) :
  (forall a e', f a = Err e' -> e' = e) ->
  forall l a, In a l -> (forall b, f a <> Ok b) -> mapM f l = Err e.
Proof.
  intros U. induction l as [| x l IH]; intros a Ha Hf; [destruct Ha |].
  cbn [mapM]. unfold bind.
  destruct (f x) as [b | e'] eqn:Fx.
  - destruct Ha as [-> | Ha]; [now elim (Hf b) |].
    now rewrite (IH a Ha Hf).
  - now rewrite (U _ _ Fx).
Qed.





Lemma readLiteral_error (wrap : Z -> scalar) (x : scalar) (e : error) :
  readLiteral wrap x = Err e -> e = errMalformedLiteral.
Proof.
  destruct x; cbn [readLiteral]; try (now intros [= <-]).
  destruct (literal.parse s); [discriminate | now intros [= <-]].
Qed.



Lemma scalars_of_type (t : gotype) (items : list scalar) :
  forallb (fun x => gotype_eqb (scalarType x) t) items = true ->
  forall x, In x items -> scalarType x = t.
Proof.
  intros H x Hx. rewrite forallb_forall in H. specialize (H x Hx).
  unfold gotype_eqb in H. now destruct (gotype_eq_dec (scalarType x) t).
Qed.






End ConversionFacts.

(* ================================================================== *)
(** * The deviations from the literal *)
(* ================================================================== *)

Section Deviations.
Import literal.

Lemma chars_app (a b : string) (c : ascii) :
  In c (list_ascii_of_string (a ++ b))
  <-> In c (list_ascii_of_string a) \/ In c (list_ascii_of_string b).
Proof.
  induction a as [| x a IH]; cbn [append list_ascii_of_string In].
  - tauto.
  - rewrite IH. tauto.
Qed.

(** No point in the text: no literal. *)
Lemma missing_point_not_shaped (s : string) :
  ~ In "."%char (list_ascii_of_string s) -> ~ shaped s.
Proof.
  intros N (sign & w & f & -> & _).
  apply N. rewrite !chars_app. right. right. left. left. reflexivity.
Qed.

(** A character that is no digit, no point and no sign: no literal. *)
Lemma non_numeric_not_shaped (s : string) (c : ascii) :
  In c (list_ascii_of_string s) ->
  digitVal c = None -> c <> "."%char -> c <> "-"%char -> ~ shaped s.
Proof.
  intros Hc D P M (sign & w & f & -> & Hs & _ & Hw & _ & Hf).
  rewrite !chars_app in Hc.
  destruct Hc as [Hc | [Hc | [Hc | Hc]]].
  - destruct Hs as [-> | ->]; [destruct Hc |].
    destruct Hc as [<- | []]. now apply M.
  - now apply (Hw c).
  - destruct Hc as [<- | []]. now apply P.
  - now apply (Hf c).
Qed.

Lemma allDigits_no_point (f : string) :
  allDigits f -> ~ In "."%char (list_ascii_of_string f).
Proof. intros D H. now apply (D _ H). Qed.

Lemma after_last_point (a : string) : forall (a' f f' : string),
  (a ++ String "." f)%string = (a' ++ String "." f')%string ->
  ~ In "."%char (list_ascii_of_string f) ->
  ~ In "."%char (list_ascii_of_string f') ->
  f = f'.
Proof.
  induction a as [| c a IH]; intros a' f f' E Nf Nf'.
  - destruct a' as [| c' a']; cbn [append] in E.
    + now injection E.
    + injection E as <- ->. elim Nf.
      rewrite chars_app. right. left. reflexivity.
  - destruct a' as [| c' a']; cbn [append] in E.
    + injection E as -> <-. elim Nf'.
      rewrite chars_app. right. left. reflexivity.
    + injection E as _ E. exact (IH _ _ _ E Nf Nf').
Qed.

(** Digits after the point, but not nine of them: no literal. *)
Lemma wrong_digit_count_not_shaped (w f : string) :
  allDigits f -> String.length f <> 9%nat ->
  ~ shaped (w ++ String "." f).
Proof.
  intros D L (sign & w' & f' & E & _ & _ & _ & L' & D').
  change (sign ++ w' ++ "." ++ f')%string
    with (sign ++ (w' ++ String "." f'))%string in E.
  assert (A : (sign ++ (w' ++ String "." f') = (sign ++ w') ++ String "." f')%string).
  { clear. induction sign as [| c s IH]; cbn [append]; [reflexivity | now rewrite IH]. }
  rewrite A in E.
  apply after_last_point in E; try now apply allDigits_no_point.
  subst f'. contradiction.
Qed.

End Deviations.

Section Malformed.
Import literal.

Lemma not_shaped_malformed (s : string) : ~ shaped s -> malformed s.
Proof.
  intros N n E. apply N. apply parse_shaped with (n := n).
  rewrite E. apply parse_format.
Qed.

Lemma deviation_malformed (s : string) : deviation s -> malformed s.
Proof.
  intros D. apply not_shaped_malformed. destruct D as [P | w f E Df L | c Hc Dc P M].
  - now apply missing_point_not_shaped.
  - subst s. now apply wrong_digit_count_not_shaped.
  - now apply non_numeric_not_shaped with (c := c).
Qed.

Lemma malformed_parse (s : string) : malformed s <-> parse s = None.
Proof.
  split.
  - intros M. destruct (parse s) as [n |] eqn:P; [| reflexivity].
    elim (M n). symmetry. now apply format_parse.
  - intros P n E. rewrite E, parse_format in P. discriminate P.
Qed.

End Malformed.

(* ================================================================== *)
(** * The properties of package [messages] *)
(* ================================================================== *)

Section MessagesProperties.
Import messages.

Lemma mapM_error_source {A B : Type} (f : A -> result B) (e : error) :
  forall l, mapM f l = Err e -> exists a, In a l /\ f a = Err e.
Proof.
  induction l as [| x l IH]; [discriminate |].
  cbn [mapM]. unfold bind.
  destruct (f x) as [b | e'] eqn:Fx.
  - destruct (mapM f l) as [bs | e''] eqn:Fl; [discriminate |].
    intros [= <-]. destruct (IH eq_refl) as (a & Ha & Fa).
    exists a. split; [now right | exact Fa].
  - intros [= <-]. exists x. split; [now left | exact Fx].
Qed.

Lemma valueToNative_errors (kind subType : types.type) (v : value) (e : error) :
  valueToNative kind subType v = Err e ->
  e = errMalformedLiteral \/ e = errUnsupportedKind.
Proof.
  assert (R : forall wrap l, mapM (readLiteral wrap) l = Err e ->
                             e = errMalformedLiteral).
  { intros wrap l H. apply mapM_error_source in H.
    destruct H as (a & _ & H). now apply readLiteral_error in H. }
  assert (S : forall wrap x, (y <- readLiteral wrap x ;; Ok (VScalar y)) = Err e ->
                             e = errMalformedLiteral).
  { intros wrap x. unfold bind.
    destruct (readLiteral wrap x) eqn:H; [discriminate |].
    intros [= <-]. now apply readLiteral_error in H. }
  destruct kind; cbn [valueToNative types.isScalar];
    try discriminate; try (intros [= <-]; now right).
  - destruct v; try (intros [= <-]; now left). intros H; left; eauto.
  - destruct v; try (intros [= <-]; now left). intros H; left; eauto.
  - destruct subType; cbn [types.isScalar];
      try discriminate; try (intros [= <-]; now right).
    + destruct v; try (intros [= <-]; now left).
      destruct elem; try (intros [= <-]; now left).
      unfold bind. destruct (mapM (readLiteral STime) items) eqn:H; [discriminate |].
      intros [= <-]. left; eauto.
    + destruct v; try (intros [= <-]; now left).
      destruct elem; try (intros [= <-]; now left).
      unfold bind. destruct (mapM (readLiteral SDuration) items) eqn:H; [discriminate |].
      intros [= <-]. left; eauto.
Qed.

Lemma timeStampToNative_errors (ts : value) (e : error) :
  timeStampToNative ts = Err e -> e = errMalformedLiteral.
Proof.
  destruct ts as [| x | | |]; try (now intros [= <-]).
  destruct x; try (now intros [= <-]). cbn [timeStampToNative].
  destruct (String.eqb s EmptyString); [discriminate |].
  unfold bind. destruct (readLiteral STime (SString s)) eqn:H; [discriminate |].
  intros [= <-]. now apply readLiteral_error in H.
Qed.

Lemma convertToGoRPC_errors (m : Metric) (e : error) :
  snd (convertToGoRPC m) = Some e ->
  e = errMalformedLiteral \/ e = errUnsupportedKind.
Proof.
  unfold convertToGoRPC.
  destruct (valueToNative (Kind m) (SubType m) (Value m)) as [v | e1] eqn:V.
  - destruct (timeStampToNative (TimeStamp m)) as [ts | e2] eqn:T;
      [discriminate |].
    intros [= <-]. left. now apply timeStampToNative_errors in T.
  - intros [= <-]. now apply valueToNative_errors in V.
Qed.

Lemma valueToNative_outside (kind subType : types.type) (v : value) :
  inDispatchTable kind subType = false ->
  valueToNative kind subType v = Err errUnsupportedKind.
Proof.
  destruct kind; cbn [inDispatchTable types.isScalar];
    try discriminate; try reflexivity.
  destruct subType; cbn [types.isScalar types.isTimeLike orb];
    try discriminate; reflexivity.
Qed.

Lemma readLiteral_malformed (wrap : Z -> scalar) (s : string) :
  literal.malformed s -> readLiteral wrap (SString s) = Err errMalformedLiteral.
Proof.
  intros M. apply malformed_parse in M. cbn [readLiteral]. now rewrite M.
Qed.




(** ** Round trip *)



(** ** Refusals *)

(** C3, as the code has it: a metric whose kind and sub-type are in no row
    of the dispatch table, and a Time or Duration string (the payload, an
    element of a list payload, the time stamp) that deviates from the
    literal, make the conversion to native fail with an error; the
    conversion to JSON hands no error to its caller. *)
Theorem convert_to_native_refuses :
  (forall s : string, literal.deviation s -> literal.malformed s)
  /\ (forall m : Metric,
         inDispatchTable (Kind m) (SubType m) = false ->
         snd (convert ToNative m) = Some errUnsupportedKind)
  /\ (forall (m : Metric) (s : string),
         types.isTimeLike (Kind m) = true ->
         Value m = VScalar (SString s) -> literal.malformed s ->
         snd (convert ToNative m) = Some errMalformedLiteral)
  /\ (forall (m : Metric) (items : list scalar) (s : string),
         Kind m = types.List -> types.isTimeLike (SubType m) = true ->
         Value m = VSlice TString items -> In (SString s) items ->
         literal.malformed s ->
         snd (convert ToNative m) = Some errMalformedLiteral)
  /\ (forall (m : Metric) (s : string),
         TimeStamp m = VScalar (SString s) -> s <> EmptyString ->
         literal.malformed s ->
         reportsError ToNative m)
  /\ (forall m : Metric, snd (convert ToJSON m) = None).
Proof.
  split; [exact deviation_malformed |].
  split; [| split; [| split; [| split]]].
  - intros m H. cbn [convert]. unfold ConvertToGoRPC, convertToGoRPC.
    now rewrite (valueToNative_outside _ _ _ H).
  - intros m s K V M. cbn [convert]. unfold ConvertToGoRPC, convertToGoRPC.
    rewrite V.
    destruct (Kind m); try discriminate K; cbn [valueToNative];
      rewrite (readLiteral_malformed _ _ M); reflexivity.
  - intros m items s K S V I M. cbn [convert].
    unfold ConvertToGoRPC, convertToGoRPC. rewrite V, K.
    destruct (SubType m); try discriminate S; cbn [valueToNative];
      rewrite (mapM_error _ errMalformedLiteral (readLiteral_error _)
                 items (SString s) I);
      try reflexivity;
      intros b; rewrite (readLiteral_malformed _ _ M); discriminate.
  - intros m s T N M. unfold reportsError. cbn [convert].
    unfold ConvertToGoRPC, convertToGoRPC. rewrite T.
    destruct (valueToNative _ _ _); [| eexists; reflexivity].
    cbn [timeStampToNative].
    destruct (String.eqb s EmptyString) eqn:E;
      [apply String.eqb_eq in E; contradiction |].
    rewrite (readLiteral_malformed _ _ M). eexists; reflexivity.
  - reflexivity.
Qed.

(** A payload "1.5": one digit after the point. *)
Lemma convert_to_native_refuses_witness :
  let m := sample types.Time types.Unknown (VScalar (SString "1.5")) VNil in
  literal.deviation "1.5"
  /\ snd (convert ToNative m) = Some errMalformedLiteral.
Proof.
  assert (D : literal.deviation "1.5").
  { apply literal.WrongDigitCount with (w := "1"%string) (f := "5"%string).
    - reflexivity.
    - intros c [<- | []]. discriminate.
    - discriminate. }
  split; [exact D |].
  apply (proj1 (proj2 (proj2 convert_to_native_refuses))) with (s := "1.5"%string).
  - reflexivity.
  - reflexivity.
  - exact (proj1 convert_to_native_refuses _ D).
Defined.

(** C3, as the claim states it, fails in the direction to JSON: a metric
    of kind Unknown, and a metric of kind Time whose payload is "1.5", are
    converted with no error reported. *)
Lemma convert_to_json_reports_no_error :
  (inDispatchTable types.Unknown types.Unknown = false
   /\ ~ reportsError ToJSON
         (sample types.Unknown types.Unknown (VScalar (SInt64 7)) VNil))
  /\ ~ reportsError ToJSON
         (sample types.Time types.Unknown (VScalar (SString "1.5")) VNil).
Proof.
  repeat split; try (intros [e E]; discriminate E).
Qed.

(** ** Frame *)


(** ** Zero values *)

(** C4: the zero value of Dist is the nil [*Distribution], returned with no
    error; it is neither a [Distribution{}] nor a pointer to one. *)
Theorem zero_value_of_dist :
  ZeroValue types.Dist = (VDistributionPtr None, None)
  /\ typeOf (fst (ZeroValue types.Dist)) = Some (TPointer TDistribution)
  /\ fst (ZeroValue types.Dist) <> VDistribution Distribution.zero
  /\ fst (ZeroValue types.Dist) <> VDistributionPtr (Some Distribution.zero)
  /\ fst (ZeroValue types.Dist) <> VNil.
Proof. repeat split; discriminate. Qed.

(** C9: the zero value of Unknown, and of any value outside the
    enumeration, is no value and the "unsupported kind" error. *)
Theorem zero_value_unsupported :
  ZeroValue types.Unknown = (VNil, Some errUnsupportedKind)
  /\ forall raw : N, ZeroValue (types.Other raw) = (VNil, Some errUnsupportedKind).
Proof.
  split; [reflexivity |]. intros raw. unfold ZeroValue, types.eqb.
  destruct (types.eq_dec (types.Other raw) types.Dist); [discriminate | reflexivity].
Qed.

(** ** Distributions *)




(** ** Initialisation *)




(** Without the initialiser none of the five is sent. *)
Lemma nothing_registered_at_start :
  gob.sendsAsInterface [] (VScalar (STime 0)) = false
  /\ gob.sendsAsInterface [] (VDistributionPtr None) = false.
Proof. split; reflexivity. Qed.

(** ** The error of a lookup *)

(** C8: a lookup by path fails with [ErrMetricNotFound] and with nothing
    else, and it does so exactly if no metric has the path; no conversion
    and no zero-value request ever reports that error. *)
Theorem not_found_is_distinguished :
  (forall (ml : MetricList) (path : string),
      snd (GetMetric ml path) = Some ErrMetricNotFound
      <-> (forall m, In m ml -> Path m <> path))
  /\ (forall (ml : MetricList) (path : string) (e : error),
         snd (GetMetric ml path) = Some e -> e = ErrMetricNotFound)
  /\ (forall (d : direction) (m : Metric) (e : error),
         snd (convert d m) = Some e -> e <> ErrMetricNotFound)
  /\ (forall (t : types.type) (e : error),
         snd (ZeroValue t) = Some e -> e <> ErrMetricNotFound).
Proof.
  split; [| split; [| split]].
  - intros ml path. unfold GetMetric.
    destruct (find (fun m => String.eqb (Path m) path) ml) as [m |] eqn:F.
    + split; [discriminate |]. intros H. apply find_some in F.
      destruct F as [I E]. apply String.eqb_eq in E. now elim (H m I).
    + split; [| reflexivity]. intros _ m I E.
      pose proof (find_none _ _ F m I) as N. cbn beta in N.
      rewrite E, String.eqb_refl in N. discriminate N.
  - intros ml path e. unfold GetMetric.
    destruct (find _ ml); [discriminate | now intros [= <-]].
  - intros d m e. destruct d; cbn [convert snd]; [| discriminate].
    intros H. apply convertToGoRPC_errors in H.
    destruct H as [-> | ->]; discriminate.
  - intros t e. unfold ZeroValue.
    destruct (types.eqb t types.Dist); [discriminate |].
    destruct t; cbn [SafeZeroValue snd]; try discriminate;
      intros [= <-]; discriminate.
Qed.

(** A list of one metric, asked for its path and for another one. *)
Lemma not_found_is_distinguished_witness :
  let m := sample types.Bool types.Unknown (VScalar (SBool true)) VNil in
  GetMetric [m] "/proc/sample" = (Some m, None)
  /\ snd (GetMetric [m] "/proc/other") = Some ErrMetricNotFound.
Proof.
  split; [reflexivity |].
  apply (proj1 not_found_is_distinguished).
  intros m [<- | []]. discriminate.
Defined.

End MessagesProperties.

(* ================================================================== *)
(** * The properties of package [healthserver] *)
(* ================================================================== *)

Section HealthProperties.
Import healthserver.

Lemma reserved_test (status : string) :
  String.eqb status "" || String.eqb status "OK" = true <-> reserved status.
Proof.
  unfold reserved. rewrite orb_true_iff, !String.eqb_eq. tauto.
Qed.

Lemma SetNotHealthy_cases (status : string) (st : flags) :
  (reserved status /\ SetNotHealthy status st = Panicked "OK status not permitted")
  \/ (~ reserved status /\ SetNotHealthy status st = Returned (setHealth status st)).
Proof.
  unfold SetNotHealthy.
  destruct (String.eqb status "" || String.eqb status "OK") eqn:E.
  - left. split; [now apply reserved_test | reflexivity].
  - right. split; [| reflexivity].
    intros R. apply reserved_test in R. congruence.
Qed.

Lemma SetNotReady_cases (status : string) (st : flags) :
  (reserved status /\ SetNotReady status st = Panicked "OK status not permitted")
  \/ (~ reserved status /\ SetNotReady status st = Returned (setReady status st)).
Proof.
  unfold SetNotReady.
  destruct (String.eqb status "" || String.eqb status "OK") eqn:E.
  - left. split; [now apply reserved_test | reflexivity].
  - right. split; [| reflexivity].
    intros R. apply reserved_test in R. congruence.
Qed.

(** C2: [SetNotHealthy] and [SetNotReady] panic if and only if the status
    is "" or "OK"; with any other status the call returns, its own flag
    holds the status and the other flag is as before. *)
Theorem failing_setters_panic_iff (status : string) (st : flags) :
  ((exists reason, SetNotHealthy status st = Panicked reason)
   <-> status = EmptyString \/ status = "OK"%string)
  /\ ((exists reason, SetNotReady status st = Panicked reason)
      <-> status = EmptyString \/ status = "OK"%string)
  /\ (match SetNotHealthy status st with
      | Returned st' =>
          health st' = status /\ ready st' = ready st
          /\ healthz st' = (503, status)
      | Panicked _ => status = EmptyString \/ status = "OK"%string
      end)
  /\ (match SetNotReady status st with
      | Returned st' =>
          ready st' = status /\ health st' = health st
          /\ readiness st' = (503, status)
      | Panicked _ => status = EmptyString \/ status = "OK"%string
      end).
Proof.
  fold (reserved status).
  destruct (SetNotHealthy_cases status st) as [[R ->] | [R ->]];
    destruct (SetNotReady_cases status st) as [[R' ->] | [R' ->]];
    try contradiction.
  - repeat split; auto; eexists; reflexivity.
  - assert (E : String.eqb status "" = false).
    { apply String.eqb_neq. intros ->. apply R. now left. }
    repeat split; try (intros [reason H]; discriminate H);
      try (intros H; contradiction);
      unfold healthz, readiness, respond; cbn [setHealth setReady health ready];
      now rewrite E.
Qed.

(** C10: [SetHealthy] and [SetReady] return from every state, with the
    empty status stored in their flag, the status that the failing setters
    refuse with a panic. *)
Theorem healthy_setters_never_panic (st : flags) :
  SetHealthy st = Returned (setHealth "" st)
  /\ SetReady st = Returned (setReady "" st)
  /\ health (setHealth "" st) = EmptyString
  /\ ready (setReady "" st) = EmptyString
  /\ healthz (setHealth "" st) = (200, "OK"%string)
  /\ readiness (setReady "" st) = (200, "OK"%string)
  /\ SetNotHealthy "" st = Panicked "OK status not permitted"
  /\ SetNotReady "" st = Panicked "OK status not permitted".
Proof. repeat split. Qed.

(** After [SetNotHealthy "db down"] the health check answers 503 and
    "db down"; after [SetHealthy] it answers 200 and "OK". *)
Lemma db_down_then_healthy :
  (st <~ SetNotHealthy "db down" initial ;; Returned (healthz st))
  = Returned (503, "db down"%string)
  /\ (st <~ SetNotHealthy "db down" initial ;; st <~ SetHealthy st ;;
      Returned (healthz st))
     = Returned (200, "OK"%string).
Proof. split; reflexivity. Qed.

End HealthProperties.

(* ================================================================== *)
(** * Two conversions end to end *)
(* ================================================================== *)

Section EndToEnd.
Import messages.

(** A duration of 90.25 seconds becomes the JSON payload "90.250000000". *)
Example duration_to_json :
  Value (ConvertToJson
           (sample types.Duration types.Unknown
              (VScalar (SDuration 90250000000)) VNil))
  = VScalar (SString "90.250000000").
Proof. reflexivity. Qed.

(** The JSON list ["0.000000001", "3.000000000"] of kind List of Time
    becomes the timestamps 1ns and 3s after the epoch, in that order. *)
Example time_list_to_native :
  ConvertToGoRPC
    (sample types.List types.Time
       (VSlice TString [SString "0.000000001"; SString "3.000000000"])
       (VScalar (SString EmptyString)))
  = (sample types.List types.Time
       (VSlice TTime [STime 1; STime 3000000000]) VNil, None).
Proof. reflexivity. Qed.

(** Leading zeros, a signed zero and an exponent are no literals. *)
Example strict_literals :
  literal.parse "01.000000000" = None
  /\ literal.parse "-0.000000000" = None
  /\ literal.parse "1e3.000000000" = None
  /\ literal.parse "1000000000" = None.
Proof. repeat split. Qed.

End EndToEnd.

(* ================================================================== *)
(** * More about the initialiser *)
(* ================================================================== *)

Section InitProperties.
Import messages.

Lemma gotype_eqb_eq (a b : gotype) : gotype_eqb a b = true <-> a = b.
Proof.
  unfold gotype_eqb. destruct (gotype_eq_dec a b); split; congruence.
Qed.

Lemma Register_exact (v : value) (t : gotype) (r : gob.registry) :
  typeOf v = Some t ->
  exists r', gob.Register v r = Returned r'
    /\ forall u, gob.registered r' u = true
                 <-> gob.registered r u = true \/ u = t.
Proof.
  intros T. unfold gob.Register. rewrite T.
  destruct (gob.registered r t) eqn:E.
  - exists r. split; [reflexivity |]. intros u. split; [now left |].
    intros [U | ->]; assumption.
  - exists (t :: r). split; [reflexivity |]. intros u.
    unfold gob.registered. cbn [existsb].
    rewrite orb_true_iff, gotype_eqb_eq. tauto.
Qed.

Lemma Register_again (v : value) (t : gotype) (r : gob.registry) :
  typeOf v = Some t -> gob.registered r t = true ->
  gob.Register v r = Returned r.
Proof. intros T R. unfold gob.Register. now rewrite T, R. Qed.

(** X1: after the initialiser the registry holds what it held before and
    the five types of [initTypes], and nothing else. *)
Theorem init_registers_exactly (r r' : gob.registry) (t : gotype) :
  init r = Returned r' ->
  (gob.registered r' t = true
   <-> gob.registered r t = true \/ In t initTypes).
Proof.
  unfold init.
  destruct (Register_exact (VScalar (STime zeroTime)) TTime r eq_refl)
    as (r1 & -> & X1).
  destruct (Register_exact (VScalar (SDuration 0)) TDuration r1 eq_refl)
    as (r2 & E2 & X2).
  destruct (Register_exact (VSlice TTime []) (TSlice TTime) r2 eq_refl)
    as (r3 & E3 & X3).
  destruct (Register_exact (VSlice TDuration []) (TSlice TDuration) r3 eq_refl)
    as (r4 & E4 & X4).
  destruct (Register_exact (VDistributionPtr None) (TPointer TDistribution)
              r4 eq_refl) as (r5 & E5 & X5).
  cbn [andThen]. rewrite E2. cbn [andThen]. rewrite E3. cbn [andThen].
  rewrite E4. cbn [andThen]. rewrite E5.
  intros [= <-].
  rewrite X5, X4, X3, X2, X1. unfold initTypes. cbn [In].
  intuition congruence.
Qed.

(** A registry that knows the string type already. *)
Lemma init_registers_exactly_witness :
  init [TString] = Returned (TPointer TDistribution :: TSlice TDuration
                             :: TSlice TTime :: TDuration :: TTime
                             :: [TString])
  /\ (gob.registered (TPointer TDistribution :: TSlice TDuration
                      :: TSlice TTime :: TDuration :: TTime :: [TString])
        TDistribution = true
      <-> gob.registered [TString] TDistribution = true
          \/ In TDistribution initTypes).
Proof.
  split; [reflexivity |].
  apply (init_registers_exactly [TString]). reflexivity.
Defined.

(** X2: running the initialiser again changes nothing. *)
Theorem init_idempotent (r r' : gob.registry) :
  init r = Returned r' -> init r' = Returned r'.
Proof.
  intros H.
  assert (A : forall t, In t initTypes -> gob.registered r' t = true).
  { intros t I. apply (init_registers_exactly r r' t H). now right. }
  unfold init.
  rewrite (Register_again _ TTime) by (reflexivity || (apply A; cbn; tauto)).
  cbn [andThen].
  rewrite (Register_again _ TDuration) by (reflexivity || (apply A; cbn; tauto)).
  cbn [andThen].
  rewrite (Register_again _ (TSlice TTime))
    by (reflexivity || (apply A; cbn; tauto)).
  cbn [andThen].
  rewrite (Register_again _ (TSlice TDuration))
    by (reflexivity || (apply A; cbn; tauto)).
  cbn [andThen].
  apply (Register_again _ (TPointer TDistribution));
    [reflexivity | apply A; cbn; tauto].
Qed.

Lemma init_idempotent_witness :
  exists r' : gob.registry, init [] = Returned r' /\ init r' = Returned r'.
Proof.
  eexists. split; [reflexivity |].
  apply (init_idempotent []). reflexivity.
Defined.

(** ** More about zero values *)


End InitProperties.

(* ================================================================== *)
(** * Programs that call the [healthserver] API *)
(* ================================================================== *)

Section HealthCalls.
Import healthserver healthcalls.

Lemma perform_cases (c : call) (st : flags) :
  (exists status,
      (c = CallSetNotHealthy status \/ c = CallSetNotReady status)
      /\ reserved status
      /\ perform c st = Panicked "OK status not permitted")
  \/ (exists st',
         perform c st = Returned st'
         /\ health st' = match healthWrite c with
                         | Some s => s | None => health st end
         /\ ready st' = match readyWrite c with
                        | Some s => s | None => ready st end
         /\ (forall s, healthWrite c = Some s -> s <> "OK"%string)
         /\ (forall s, readyWrite c = Some s -> s <> "OK"%string)
         /\ (forall status, c = CallSetNotHealthy status
                            \/ c = CallSetNotReady status -> ~ reserved status)).
Proof.
  destruct c as [| status | status |]; cbn [perform healthWrite readyWrite].
  - right. eexists. split; [reflexivity |].
    repeat split; try discriminate.
    + intros s [= <-]. discriminate.
    + intros status [H | H]; discriminate H.
  - destruct (SetNotHealthy_cases status st) as [[R ->] | [R ->]].
    + left. exists status. auto.
    + right. eexists. split; [reflexivity |].
      repeat split; try discriminate.
      * intros s [= <-] ->. apply R. now right.
      * intros s [[= <-] | [= <-]]; exact R.
  - destruct (SetNotReady_cases status st) as [[R ->] | [R ->]].
    + left. exists status. auto.
    + right. eexists. split; [reflexivity |].
      repeat split; try discriminate.
      * intros s [= <-] ->. apply R. now right.
      * intros s [[= <-] | [= <-]]; exact R.
  - right. eexists. split; [reflexivity |].
    repeat split; try discriminate.
    + intros s [= <-]. discriminate.
    + intros status [H | H]; discriminate H.
Qed.

(** X4: a program panics if and only if one of its calls is
    [SetNotHealthy] or [SetNotReady] with the empty status or with "OK". *)
Theorem run_panics_iff (cs : list call) (st : flags) :
  (exists reason, run cs st = Panicked reason)
  <-> exists status,
        reserved status
        /\ (In (CallSetNotHealthy status) cs
            \/ In (CallSetNotReady status) cs).
Proof.
  revert st. induction cs as [| c cs IH]; intros st.
  - cbn [run In]. split.
    + intros [reason H]. discriminate H.
    + intros (status & _ & [[] | []]).
  - cbn [run In].
    destruct (perform_cases c st)
      as [(status & C & R & ->) | (st' & -> & _ & _ & _ & _ & P)];
      cbn [andThen].
    + split; [| intros _; eexists; reflexivity].
      intros _. exists status. split; [exact R |].
      destruct C as [-> | ->]; [left | right]; now left.
    + rewrite IH. split.
      * intros (status & R & [I | I]); exists status; auto.
      * intros (status & R & [[E | I] | [E | I]]);
          try (now elim (P status (or_introl E)));
          try (now elim (P status (or_intror E)));
          exists status; auto.
Qed.

(** X5: when a program returns, each flag holds the status of the last
    call that set it, or what it held at the start if no call set it. *)
Theorem run_last_call_wins (cs : list call) (st st' : flags) :
  run cs st = Returned st' ->
  health st' = lastWrite healthWrite cs (health st)
  /\ ready st' = lastWrite readyWrite cs (ready st).
Proof.
  revert st. induction cs as [| c cs IH]; intros st.
  - cbn [run lastWrite]. intros [= <-]. now split.
  - cbn [run lastWrite].
    destruct (perform_cases c st)
      as [(status & _ & _ & ->) | (st1 & -> & H & R & _)];
      cbn [andThen]; [discriminate |].
    intros E. apply IH in E. now rewrite H, R in E.
Qed.

Lemma run_last_call_wins_witness :
  let cs := [CallSetNotReady "warming up"; CallSetNotHealthy "db down";
             CallSetReady; CallSetNotHealthy "disk full"] in
  run cs initial = Returned {| health := "disk full"; ready := "" |}
  /\ health {| health := "disk full"; ready := "" |}
     = lastWrite healthWrite cs (health initial)
  /\ ready {| health := "disk full"; ready := "" |}
     = lastWrite readyWrite cs (ready initial).
Proof.
  split; [reflexivity |].
  apply (run_last_call_wins _ initial). reflexivity.
Defined.

Lemma respond_plain (status : string) :
  status <> "OK"%string -> plainAnswer (respond status).
Proof.
  intros N. unfold respond, plainAnswer.
  destruct (String.eqb status "") eqn:E; [now left |].
  right. exists status. split; [reflexivity |].
  apply String.eqb_neq in E. intros [R | R]; contradiction.
Qed.

(** X6: no program brings a flag to hold "OK" as a failure message: started
    without one, a program that returns leaves none, and both handlers
    answer 200 with "OK" or 503 with a message that is neither empty nor
    "OK". *)
Theorem run_keeps_answers_plain (cs : list call) (st st' : flags) :
  unambiguous st ->
  run cs st = Returned st' ->
  unambiguous st' /\ plainAnswer (healthz st') /\ plainAnswer (readiness st').
Proof.
  intros U H.
  assert (U' : unambiguous st').
  { revert st U H. induction cs as [| c cs IH]; intros st U.
    - cbn [run]. now intros [= <-].
    - cbn [run].
      destruct (perform_cases c st)
        as [(status & _ & _ & ->) | (st1 & -> & Hh & Hr & Wh & Wr & _)];
        cbn [andThen]; [discriminate |].
      apply IH. destruct U as [Uh Ur]. split.
      + rewrite Hh. destruct (healthWrite c) as [s |]; [now apply Wh | exact Uh].
      + rewrite Hr. destruct (readyWrite c) as [s |]; [now apply Wr | exact Ur]. }
  split; [exact U' |]. destruct U' as [Uh Ur].
  split; apply respond_plain; assumption.
Qed.

Lemma run_keeps_answers_plain_witness :
  let cs := [CallSetNotHealthy "db down"; CallSetReady] in
  unambiguous initial
  /\ run cs initial = Returned {| health := "db down"; ready := "" |}
  /\ plainAnswer (healthz {| health := "db down"; ready := "" |}).
Proof.
  assert (U : unambiguous initial) by (split; discriminate).
  split; [exact U |]. split; [reflexivity |].
  apply (run_keeps_answers_plain
           [CallSetNotHealthy "db down"; CallSetReady] initial _ U eq_refl).
Defined.

(** The guard is what keeps the answers plain: were "OK" stored as a
    failure message, the handler would answer 503 with "OK". *)
Lemma ok_as_failure_is_ambiguous :
  healthz (setHealth "OK" initial) = (503, "OK"%string)
  /\ ~ plainAnswer (healthz (setHealth "OK" initial)).
Proof.
  split; [reflexivity |].
  intros [E | (msg & E & R)]; [discriminate E |].
  injection E as <-. apply R. now right.
Qed.

End HealthCalls.
